(** * Timetable grid construction (src/timetable/src/components/Timetable.jsx)

    The component receives [data], a JavaScript object mapping group numbers
    to objects mapping course names to arrays of sessions, and builds one
    5 x 5 array of cells per group before rendering it.  This file embeds
    that construction and the sub-type label of the rendering, and proves
    the properties stated about them. *)

From Stdlib Require Import Ascii.
From stdpp Require Import list strings sorting.

Local Open Scope Z_scope.

(** ** JavaScript objects as seen by [Object.entries]

    An ordinary object is represented by its own enumerable string-keyed
    properties in creation order.  A well-formed object has no repeated key.
    [Object.entries] follows OrdinaryOwnPropertyKeys: first the keys that are
    array indices, in ascending numeric order, then the other keys in
    creation order. *)

Module JsObject.

Abbreviation obj V := (list (string * V)) (only parsing).

Definition wf {V} (o : obj V) : Prop := NoDup o.*1.

(** value of a decimal digit *)
Definition digit (c : ascii) : option N :=
  let n := N_of_ascii c in
  if ((48 <=? n) && (n <=? 57))%N then Some (n - 48)%N else None.

Fixpoint digits (acc : N) (s : string) : option N :=
  match s with
  | EmptyString => Some acc
  | String c r => d ← digit c; digits (10 * acc + d)%N r
  end.

(** An array index is a canonical numeric string (decimal digits, no
    leading zero except for "0" itself) whose value is at most 2^32 - 2. *)
Definition array_index (k : string) : option N :=
  match k with
  | EmptyString => None
  | String c r =>
      if decide (c = "0"%char)
      then (if decide (r = EmptyString) then Some 0%N else None)
      else n ← digits 0 k; if (n <? 2 ^ 32 - 1)%N then Some n else None
  end.

Definition is_index {V} (p : string * V) : Prop := is_Some (array_index p.1).

Definition index_of {V} (p : string * V) : N := default 0%N (array_index p.1).

Definition index_le {V} (p q : string * V) : Prop :=
  (index_of p ≤ index_of q)%N.

Global Instance index_le_dec {V} : RelDecision (@index_le V).
Proof. intros p q. unfold index_le. apply _. Defined.

Global Instance is_index_dec {V} (p : string * V) : Decision (is_index p).
Proof. unfold is_index. apply _. Defined.

Definition index_entries {V} (o : obj V) : list (string * V) :=
  merge_sort index_le (filter is_index o).

Definition string_entries {V} (o : obj V) : list (string * V) :=
  filter (λ p, ¬ is_index p) o.

Definition Object_entries {V} (o : obj V) : list (string * V) :=
  index_entries o ++ string_entries o.

End JsObject.

Import JsObject.

(** ** Data model *)

(** One element of a course's session array. [day], [slot] and [teacher_id]
    are integers. *)
Record Session := mkSession {
  course_type : string;
  day : Z;
  slot : Z;
  teacher_id : Z
}.

(** The object literal stored in a cell (lines 26-30). *)
Record Cell := mkCell {
  courseName : string;
  courseType : string;
  teacherId : Z
}.

(** A cell of the grid is [null] ([None]) or a cell object. *)
Abbreviation Row := (list (option Cell)) (only parsing).
Abbreviation Grid := (list Row) (only parsing).

Abbreviation GroupCourses := (JsObject.obj (list Session)) (only parsing).
Abbreviation Payload := (JsObject.obj GroupCourses) (only parsing).

(** Lines 5-6. *)
Definition days : list string :=
  ["Sunday"; "Monday"; "Tuesday"; "Wednesday"; "Thursday"]%string.

Definition timeSlots : list string :=
  ["8:30-10:00"; "10:10-11:40"; "11:45-13:15"; "13:20-14:50"; "15:00-16:30"]%string.

(** ** Array primitives *)

(** [Array(n).fill()] : [n] elements, all [undefined]. *)
Definition Array_fill_undefined (n : nat) : list unit := replicate n ().

(** [Array(n).fill(null)]. *)
Definition Array_fill_null (n : nat) : Row := replicate n None.

(** [row[j] = v] on an array.  A negative [j] names a property that is not an
    element, so the elements are unchanged; [j] past the end extends the
    array, the skipped positions being holes, which read back as a falsy
    value like [null] and are represented by [None]. *)
Definition row_set (j : Z) (v : Cell) (row : Row) : Row :=
  if bool_decide (j < 0) then row
  else
    let n := Z.to_nat j in
    if bool_decide (n < length row)%nat then <[n := Some v]> row
    else row ++ replicate (n - length row) None ++ [Some v].

(** [timetable[i][j] = v].  When [timetable[i]] is [undefined] the assignment
    throws a TypeError, represented by [None]; otherwise the row object is
    updated in place. *)
Definition grid_set (i j : Z) (v : Cell) (timetable : Grid) : option Grid :=
  if bool_decide (i < 0) then None
  else
    row ← timetable !! Z.to_nat i;
    Some (<[Z.to_nat i := row_set j v row]> timetable).

(** [xs.forEach(f)] where [f] updates the state and may throw. *)
Fixpoint forEach {A S : Type} (f : A → S → option S) (xs : list A) (s : S)
  : option S :=
  match xs with
  | [] => Some s
  | x :: rest => s' ← f x s; forEach f rest s'
  end.

(** ** Grid construction (lines 14-33) *)

(** Line 16.  Every row comes from its own call of the arrow function, so
    no two rows share an array. *)
Definition empty_timetable : Grid :=
  (λ _, Array_fill_null (length timeSlots)) <$> Array_fill_undefined (length days).

(** Lines 24-25. *)
Definition in_bounds (dayIndex slotIndex : Z) : bool :=
  bool_decide (dayIndex >= 0) && bool_decide (dayIndex < Z.of_nat (length days)) &&
  bool_decide (slotIndex >= 0) && bool_decide (slotIndex < Z.of_nat (length timeSlots)).

(** Lines 20-32, the body of the inner [forEach]. *)
Definition place_session (courseName : string) (session : Session)
    (timetable : Grid) : option Grid :=
  let dayIndex := day session - 1 in
  let slotIndex := slot session - 1 in
  if in_bounds dayIndex slotIndex then
    grid_set dayIndex slotIndex
      {| courseName := courseName;
         courseType := course_type session;
         teacherId := teacher_id session |}
      timetable
  else Some timetable.

(** Lines 19-33. *)
Definition populate (groupCourses : GroupCourses) (timetable : Grid)
  : option Grid :=
  forEach (λ '(courseName, sessions), forEach (place_session courseName) sessions)
          (Object_entries groupCourses) timetable.

(** Lines 15-33: the grid of one group. *)
Definition group_timetable (groupCourses : GroupCourses) : option Grid :=
  populate groupCourses empty_timetable.

(** Line 14: one grid per entry of [data], in [Object.entries] order.  The
    result pairs each group number with the grid that is rendered under
    that key; it is what the specification calls [build]. *)
Definition Timetable (data : Payload) : option (list (string * Grid)) :=
  mapM (λ '(groupNumber, groupCourses),
          timetable ← group_timetable groupCourses; Some (groupNumber, timetable))
       (Object_entries data).

(** ** Rendering of the sub-type label (line 58) *)

(** [s.split(sep)] for a separator of one character. *)
Fixpoint split (sep : ascii) (s : string) : list string :=
  match s with
  | EmptyString => [EmptyString]
  | String c r =>
      if decide (c = sep) then EmptyString :: split sep r
      else match split sep r with
           | p :: ps => String c p :: ps
           | [] => [String c EmptyString]
           end
  end.

(** [cell.courseType.split('_')[1]]; [None] is [undefined]. *)
Definition subType (courseType : string) : option string :=
  split "_"%char courseType !! 1%nat.

(** The text React shows for the child [{v}]: nothing for [undefined]. *)
Definition text_of (v : option string) : string := default EmptyString v.

Definition subType_label (c : Cell) : string := text_of (subType (courseType c)).

(** The cell read by the renderer at line 52, [null] and [undefined] both
    being falsy at line 55. *)
Definition cell_at (timetable : Grid) (dayIndex slotIndex : nat) : option Cell :=
  row ← timetable !! dayIndex; c ← row !! slotIndex; c.

(** The part of [s] before its first [sep]; all of [s] if there is none. *)
Fixpoint before_first (sep : ascii) (s : string) : string :=
  match s with
  | EmptyString => EmptyString
  | String c r =>
      if decide (c = sep) then EmptyString else String c (before_first sep r)
  end.

(** The part of [s] after its first [sep]; empty if there is none.  With
    [sep] an underscore this is the sub-type as the specification words it. *)
Fixpoint after_first (sep : ascii) (s : string) : string :=
  match s with
  | EmptyString => EmptyString
  | String c r => if decide (c = sep) then r else after_first sep r
  end.

Fixpoint contains (sep : ascii) (s : string) : bool :=
  match s with
  | EmptyString => false
  | String c r => if decide (c = sep) then true else contains sep r
  end.

(** [k1] and [k2] are array indices and [k1] is numerically smaller. *)
Definition index_lt (k1 k2 : string) : Prop :=
  ∃ n1 n2, array_index k1 = Some n1 ∧ array_index k2 = Some n2 ∧ (n1 < n2)%N.

(** A session whose day or slot lies outside the calendar. *)
Definition out_of_range (s : Session) : Prop :=
  day s > Z.of_nat (length days) ∨ slot s > Z.of_nat (length timeSlots) ∨
  day s < 1 ∨ slot s < 1.

(** ** Sample payloads *)

Definition security_lecture : Session :=
  {| course_type := "Security_lecture"; day := 1; slot := 1; teacher_id := 1 |}.

(** One group with one session on the first day at the first slot. *)
Definition single_session_payload : Payload :=
  [("1", [("Security", [security_lecture])])].

(** A session on a sixth day. *)
Definition late_session : Session :=
  {| course_type := "Security_td"; day := 6; slot := 1; teacher_id := 1 |}.

(** Two courses of one group, both with a session at day 2, slot 2. *)
Definition algebra_lecture : Session :=
  {| course_type := "Algebra_lecture"; day := 2; slot := 2; teacher_id := 3 |}.

Definition security_td : Session :=
  {| course_type := "Security_td"; day := 2; slot := 2; teacher_id := 7 |}.

Definition collision_courses : GroupCourses :=
  [("Algebra", [algebra_lecture]); ("Security", [security_td])].

Definition collision_payload : Payload := [("1", collision_courses)].

(** Group "2" created before group "1". *)
Definition reversed_payload : Payload :=
  [("2", [("Algebra", [algebra_lecture])]);
   ("1", [("Security", [security_lecture])])].

(** A group whose only session is out of range and a group without
    courses. *)
Definition sparse_payload : Payload :=
  [("1", [("Security", [late_session])]); ("2", [])].

(** Two payloads that agree on group "1" and differ elsewhere. *)
Definition other_payload : Payload :=
  [("1", collision_courses); ("B", [("Security", [security_lecture])])].

(** The cell object written for a session of course [cn]. *)
Definition cell_of (cn : string) (s : Session) : Cell :=
  {| courseName := cn; courseType := course_type s; teacherId := teacher_id s |}.

(** The position a session is written to, if the test of lines 24-25 lets
    it through. *)
Definition target (s : Session) : option (nat * nat) :=
  if in_bounds (day s - 1) (slot s - 1)
  then Some (Z.to_nat (day s - 1), Z.to_nat (slot s - 1))
  else None.

(** The sessions of a group in the order in which the two nested [forEach]
    loops visit them, each with the name of its course. *)
Definition agenda (groupCourses : GroupCourses) : list (string * Session) :=
  '(courseName, sessions) ← Object_entries groupCourses;
  (λ session, (courseName, session)) <$> sessions.

(** The loop body applied to the sessions of an agenda, in order. *)
Definition run (l : list (string * Session)) (t : Grid) : option Grid :=
  forEach (λ '(cn, s), place_session cn s) l t.

(** A grid with [length days] rows of [length timeSlots] cells each. *)
Definition well_shaped (t : Grid) : Prop :=
  length t = length days ∧ Forall (λ row, length row = length timeSlots) t.

(** ** Rendering of a group (lines 35-70) *)

(** The three lines of a filled table cell (lines 56-60).  [entry_type] is
    the value of [cell.courseType.split('_')[1]], [None] being
    [undefined]. *)
Record CourseEntry := mkEntry {
  entry_name : string;
  entry_type : option string;
  entry_teacher : Z
}.

(** Lines 55-61, [cell ? <div className="course-entry">...</div> : null]. *)
Definition render_cell (cell : option Cell) : option CourseEntry :=
  match cell with
  | Some c =>
      Some {| entry_name := courseName c;
              entry_type := subType (courseType c);
              entry_teacher := teacherId c |}
  | None => None
  end.

(** Line 52, [timetable[dayIndex][slotIndex]].  When [timetable[dayIndex]]
    is [undefined] the read throws a TypeError ([None]); an index past the
    end of the row reads [undefined], which is falsy like [null]. *)
Definition grid_get (dayIndex slotIndex : nat) (timetable : Grid)
  : option (option Cell) :=
  row ← timetable !! dayIndex; Some (c ← row !! slotIndex; c).

(** Lines 49-65: one table row, the time label followed by one cell per
    day. *)
Definition render_row (timetable : Grid) (slotIndex : nat) (time : string)
  : option (string * list (option CourseEntry)) :=
  cells ← mapM id
    (imap (λ dayIndex _,
             cell ← grid_get dayIndex slotIndex timetable;
             Some (render_cell cell))
          days);
  Some (time, cells).

(** What is rendered for one group (lines 36-69): the React key, the text
    of the heading, the header row and the body rows. *)
Record GroupView := mkView {
  group_key : string;
  heading : string;
  thead : list string;
  tbody : list (string * list (option CourseEntry))
}.

Definition render_group (groupNumber : string) (timetable : Grid)
  : option GroupView :=
  rows ← mapM id
    (imap (λ slotIndex time, render_row timetable slotIndex time) timeSlots);
  Some {| group_key := groupNumber;
          heading := "Group " +:+ groupNumber;
          thead := "Time/Day"%string :: days;
          tbody := rows |}.

(** Lines 14-71: the list of group blocks the component returns. *)
Definition Timetable_view (data : Payload) : option (list GroupView) :=
  mapM (λ '(groupNumber, groupCourses),
          timetable ← group_timetable groupCourses;
          render_group groupNumber timetable)
       (Object_entries data).

(** The entry shown in the body row of a slot, in the column of a day. *)
Definition shown (v : GroupView) (slotIndex dayIndex : nat)
  : option CourseEntry :=
  row ← tbody v !! slotIndex; e ← row.2 !! dayIndex; e.

(** A course with a numeric name, created after a course with another
    name, both with a session at day 2, slot 2. *)
Definition numbered_courses : GroupCourses :=
  [("Algebra", [algebra_lecture]);
   ("101", [{| course_type := "101_td"; day := 2; slot := 2; teacher_id := 9 |}])].

Global Instance Session_eq_dec : EqDecision Session.
Proof. solve_decision. Defined.

(** No two sessions of the list are written to the same cell. *)
Definition collision_free (l : list (string * Session)) : Prop :=
  NoDup (omap (λ p, target p.2) l).

(** The payload of [reversed_payload] with its groups created in ascending
    order. *)
Definition ordered_payload : Payload :=
  [("1", [("Security", [security_lecture])]);
   ("2", [("Algebra", [algebra_lecture])])].

(** The courses of [collision_courses] at different slots, and the same
    courses created in the other order. *)
Definition algebra_td : Session :=
  {| course_type := "Algebra_td"; day := 3; slot := 2; teacher_id := 3 |}.

Definition disjoint_courses : GroupCourses :=
  [("Algebra", [algebra_lecture; algebra_td]); ("Security", [security_lecture])].

Definition disjoint_courses_swapped : GroupCourses :=
  [("Security", [security_lecture]); ("Algebra", [algebra_td; algebra_lecture])].

(** ** Array indices *)

Section array_index.

Lemma digit_Some c d : digit c = Some d → (d < 10)%N ∧ c = ascii_of_N (d + 48).
Proof.
  unfold digit. case_match eqn:Hb; [|done]. intros [= <-].
  apply andb_true_iff in Hb as [H1%N.leb_le H2%N.leb_le].
  split; [lia|].
  replace (N_of_ascii c - 48 + 48)%N with (N_of_ascii c) by lia.
  by rewrite ascii_N_embedding.
Qed.

(** The value read from [s] after [acc] keeps [acc] as its leading part. *)
Lemma digits_bounds s acc n :
  digits acc s = Some n →
  (acc * 10 ^ N.of_nat (String.length s) ≤ n
   < (acc + 1) * 10 ^ N.of_nat (String.length s))%N.
Proof.
  revert acc. induction s as [|c r IH]; intros acc; simpl digits.
  - intros [= <-]. simpl. lia.
  - destruct (digit c) as [d|] eqn:Hd; [|done]. simpl.
    intros Hr%IH. apply digit_Some in Hd as [Hd _].
    cbn [String.length]. rewrite Nat2N.inj_succ, N.pow_succ_r'. nia.
Qed.

Lemma digits_inj s1 s2 acc1 acc2 n :
  String.length s1 = String.length s2 →
  digits acc1 s1 = Some n → digits acc2 s2 = Some n →
  acc1 = acc2 ∧ s1 = s2.
Proof.
  revert s2 acc1 acc2.
  induction s1 as [|c1 r1 IH]; intros [|c2 r2] acc1 acc2; try done.
  - intros _ [= <-] [= <-]. done.
  - simpl. intros [= Hlen].
    destruct (digit c1) as [d1|] eqn:Hd1; [|done].
    destruct (digit c2) as [d2|] eqn:Hd2; [|done]. simpl.
    intros H1 H2. destruct (IH _ _ _ Hlen H1 H2) as [Hacc ->].
    apply digit_Some in Hd1 as [? ->]. apply digit_Some in Hd2 as [? ->].
    assert (d1 = d2) as -> by lia. split; [lia|done].
Qed.

(** The two shapes of an array index: "0", or a non-zero digit followed
    by digits. *)
Lemma array_index_Some k n :
  array_index k = Some n →
  (k = String "0"%char EmptyString ∧ n = 0%N) ∨
  (∃ d r, (1 ≤ d < 10)%N ∧ k = String (ascii_of_N (d + 48)) r ∧
          digits d r = Some n).
Proof.
  destruct k as [|c r]; [done|]. unfold array_index.
  destruct (decide (c = "0"%char)) as [->|Hc].
  - case_decide as Hr; [|done]. intros [= <-]. left. by rewrite Hr.
  - cbn [digits]. destruct (digit c) as [d|] eqn:Hd; [|done].
    cbn [mbind option_bind]. change (10 * 0 + d)%N with d.
    destruct (digits d r) as [m|] eqn:Hm; [|done]. cbn [mbind option_bind].
    case_match; [|done]. intros [= ->].
    right. exists d, r. apply digit_Some in Hd as [Hd ->].
    split; [|done].
    destruct (decide (d = 0%N)) as [->|]; [|lia]. by destruct Hc.
Qed.

(** Two keys with the same array index are the same key. *)
Lemma array_index_inj k1 k2 n :
  array_index k1 = Some n → array_index k2 = Some n → k1 = k2.
Proof.
  intros [[-> ->]|(d1 & r1 & Hd1 & -> & Hr1)]%array_index_Some
         [[-> Hn]|(d2 & r2 & Hd2 & -> & Hr2)]%array_index_Some.
  - done.
  - apply digits_bounds in Hr2. nia.
  - subst n. apply digits_bounds in Hr1. nia.
  - pose proof (digits_bounds _ _ _ Hr1) as Hb1.
    pose proof (digits_bounds _ _ _ Hr2) as Hb2.
    assert (String.length r1 = String.length r2) as Hlen.
    { destruct (Nat.lt_trichotomy (String.length r1) (String.length r2))
        as [Hlt|[?|Hlt]]; [|done|]; exfalso.
      - assert (10 * 10 ^ N.of_nat (String.length r1)
                ≤ 10 ^ N.of_nat (String.length r2))%N.
        { rewrite <-N.pow_succ_r'. apply N.pow_le_mono_r; lia. }
        nia.
      - assert (10 * 10 ^ N.of_nat (String.length r2)
                ≤ 10 ^ N.of_nat (String.length r1))%N.
        { rewrite <-N.pow_succ_r'. apply N.pow_le_mono_r; lia. }
        nia. }
    destruct (digits_inj _ _ _ _ _ Hlen Hr1 Hr2) as [-> ->]. done.
Qed.

End array_index.

(** ** Properties of [Object.entries] *)

Section entries.
Context {V : Type}.
Implicit Types o : JsObject.obj V.

Global Instance index_le_total : Total (@index_le V).
Proof. intros p q. unfold index_le. lia. Qed.

Global Instance index_le_trans : Transitive (@index_le V).
Proof. intros p q r. unfold index_le. lia. Qed.

Lemma Object_entries_Permutation o : Object_entries o ≡ₚ o.
Proof.
  unfold Object_entries, index_entries, string_entries.
  rewrite merge_sort_Permutation. apply filter_app_complement.
Qed.

Lemma elem_of_Object_entries o p : p ∈ Object_entries o ↔ p ∈ o.
Proof. by rewrite Object_entries_Permutation. Qed.

Lemma index_entries_Sorted o : Sorted index_le (index_entries o).
Proof. apply (Sorted_merge_sort index_le). Qed.

Lemma index_entries_Permutation o : index_entries o ≡ₚ filter is_index o.
Proof. apply merge_sort_Permutation. Qed.

Lemma index_entries_nil o :
  Forall (λ p, array_index p.1 = None) o → index_entries o = [].
Proof.
  intros Hall. apply Permutation_nil_r.
  rewrite index_entries_Permutation.
  induction Hall as [|p o Hp _ IH]; [done|].
  rewrite filter_cons, decide_False; [done|].
  unfold is_index. rewrite Hp. by intros [? ?].
Qed.

Lemma string_entries_id o :
  Forall (λ p, array_index p.1 = None) o → string_entries o = o.
Proof.
  unfold string_entries.
  induction 1 as [|p o Hp _ IH]; [done|].
  rewrite filter_cons, decide_True; [by rewrite IH|].
  unfold is_index. rewrite Hp. by intros [? ?].
Qed.

(** Without array-index keys the creation order is the enumeration order. *)
Lemma Object_entries_no_index o :
  Forall (λ p, array_index p.1 = None) o → Object_entries o = o.
Proof.
  intros H. unfold Object_entries.
  by rewrite index_entries_nil, string_entries_id.
Qed.

Lemma Object_entries_keys_NoDup o : wf o → NoDup (Object_entries o).*1.
Proof. unfold wf. by rewrite Object_entries_Permutation. Qed.

End entries.

(** ** Properties of [forEach] *)

Section forEach.
Context {A S : Type} (f : A → S → option S).

Lemma forEach_app xs ys s :
  forEach f (xs ++ ys) s = forEach f xs s ≫= forEach f ys.
Proof.
  revert s. induction xs as [|x xs IH]; intros s; simpl; [done|].
  destruct (f x s) as [s'|]; simpl; [apply IH | done].
Qed.

(** A loop whose body keeps an invariant and never throws under it
    finishes, in a state that satisfies the invariant. *)
Lemma forEach_invariant (I : S → Prop) xs s :
  (∀ x s, I s → ∃ s', f x s = Some s' ∧ I s') →
  I s → ∃ s', forEach f xs s = Some s' ∧ I s'.
Proof.
  intros Hstep. revert s. induction xs as [|x xs IH]; intros s Hs; simpl.
  - eauto.
  - destruct (Hstep x s Hs) as (s' & -> & Hs'). simpl. by apply IH.
Qed.

End forEach.

Lemma forEach_nested {A B S : Type} (f : A → B → S → option S)
    (xss : list (A * list B)) (s : S) :
  forEach (λ '(a, bs), forEach (f a) bs) xss s =
  forEach (λ '(a, b), f a b) ('(a, bs) ← xss; (λ b, (a, b)) <$> bs) s.
Proof.
  revert s. induction xss as [|[a bs] xss IH]; intros s; [done|].
  cbn [forEach mbind list_bind]. rewrite forEach_app.
  assert (forEach (f a) bs s =
          forEach (λ '(a, b), f a b) ((λ b, (a, b)) <$> bs) s) as ->.
  { clear. revert s. induction bs as [|b bs IH]; intros s; simpl; [done|].
    destruct (f a b s); simpl; [apply IH | done]. }
  destruct (forEach _ _ s); simpl; [apply IH | done].
Qed.

(** ** The grid and a single write *)

Section grid.
Implicit Types (t : Grid) (s : Session) (cn : string) (d sl : nat).

Lemma in_bounds_spec (i j : Z) :
  in_bounds i j = true ↔
  0 ≤ i < Z.of_nat (length days) ∧ 0 ≤ j < Z.of_nat (length timeSlots).
Proof.
  unfold in_bounds. rewrite !andb_true_iff, !bool_decide_eq_true. lia.
Qed.

Lemma target_Some s d sl :
  target s = Some (d, sl) ↔
  day s = Z.of_nat d + 1 ∧ slot s = Z.of_nat sl + 1 ∧
  (d < length days)%nat ∧ (sl < length timeSlots)%nat.
Proof.
  unfold target. destruct (in_bounds _ _) eqn:Hb.
  - apply in_bounds_spec in Hb. split.
    + intros [= <- <-]. lia.
    + intros (Hd & Hs & _ & _). f_equal. f_equal; lia.
  - split; [done|]. intros (Hd & Hs & ? & ?).
    assert (in_bounds (day s - 1) (slot s - 1) = true) as Hb'
      by (apply in_bounds_spec; lia).
    congruence.
Qed.

Lemma target_None s : target s = None ↔ out_of_range s.
Proof.
  unfold target, out_of_range. destruct (in_bounds _ _) eqn:Hb.
  - apply in_bounds_spec in Hb. split; [done | lia].
  - split; [|done]. intros _.
    destruct (decide (1 ≤ day s ≤ Z.of_nat (length days) ∧
                      1 ≤ slot s ≤ Z.of_nat (length timeSlots))) as [H|H];
      [|lia].
    assert (in_bounds (day s - 1) (slot s - 1) = true) as Hb'
      by (apply in_bounds_spec; lia).
    congruence.
Qed.

Lemma empty_timetable_well_shaped : well_shaped empty_timetable.
Proof. split; [done|]. by repeat constructor. Qed.

Lemma cell_at_empty d sl : cell_at empty_timetable d sl = None.
Proof.
  unfold cell_at, empty_timetable, Array_fill_undefined, Array_fill_null.
  rewrite list_lookup_fmap.
  destruct (replicate (length days) () !! d) as [[]|]; [|done]. simpl.
  do 5 (destruct sl as [|sl]; [done|]). done.
Qed.

Lemma well_shaped_lookup t d :
  well_shaped t → (d < length days)%nat →
  ∃ row, t !! d = Some row ∧ length row = length timeSlots.
Proof.
  intros [Hlen Hrows] Hd.
  destruct (lookup_lt_is_Some_2 t d) as [row Hrow]; [lia|].
  exists row. split; [done|].
  by eapply (Forall_lookup_1 _ _ _ _ Hrows).
Qed.

Lemma well_shaped_insert t d row :
  well_shaped t → length row = length timeSlots →
  well_shaped (<[d := row]> t).
Proof.
  intros [Hlen Hrows] Hrow. split.
  - by rewrite length_insert.
  - by apply Forall_insert.
Qed.

(** A session that fails the test of lines 24-25 leaves the grid alone. *)
Lemma place_session_skip cn s t :
  target s = None → place_session cn s t = Some t.
Proof.
  unfold target, place_session.
  by destruct (in_bounds _ _).
Qed.

(** A session that passes the test is stored in its cell; on a grid of
    the right shape the assignment of line 26 does not throw. *)
Lemma place_session_write cn s t d sl :
  well_shaped t → target s = Some (d, sl) →
  ∃ row, t !! d = Some row ∧ length row = length timeSlots ∧
         place_session cn s t =
           Some (<[d := <[sl := Some (cell_of cn s)]> row]> t).
Proof.
  intros Ht Htg.
  pose proof Htg as (Hd & Hs & Hdlt & Hslt)%target_Some.
  destruct (well_shaped_lookup t d Ht Hdlt) as (row & Hrow & Hlen).
  exists row. split; [done|]. split; [done|].
  unfold place_session, target in *.
  destruct (in_bounds _ _); [|done].
  injection Htg as Hd' Hs'.
  unfold grid_set. rewrite bool_decide_eq_false_2 by lia.
  rewrite Hd', Hrow. simpl. unfold row_set.
  rewrite bool_decide_eq_false_2 by lia.
  rewrite Hs', bool_decide_eq_true_2 by lia. done.
Qed.

Lemma cell_at_insert t d sl row v d' sl' :
  t !! d = Some row → (sl < length row)%nat →
  cell_at (<[d := <[sl := Some v]> row]> t) d' sl' =
    if decide (d' = d ∧ sl' = sl) then Some v else cell_at t d' sl'.
Proof.
  intros Hrow Hsl. unfold cell_at.
  pose proof (lookup_lt_Some _ _ _ Hrow) as Hd.
  rewrite list_lookup_insert.
  destruct (decide (d = d' ∧ (d < length t)%nat)) as [[<- _]|Hne]; simpl.
  - rewrite list_lookup_insert, Hrow. simpl.
    destruct (decide (sl = sl' ∧ (sl < length row)%nat)) as [[<- _]|Hne].
    + by rewrite decide_True.
    + rewrite decide_False; [done|]. intros [_ ->]. by apply Hne.
  - rewrite decide_False; [done|]. intros [-> _]. by apply Hne.
Qed.

(** The effect of the loop body on the grid, cell by cell. *)
Lemma place_session_spec cn s t :
  well_shaped t →
  ∃ t', place_session cn s t = Some t' ∧ well_shaped t' ∧
        ∀ d sl, cell_at t' d sl =
                  if decide (target s = Some (d, sl))
                  then Some (cell_of cn s) else cell_at t d sl.
Proof.
  intros Ht. destruct (target s) as [[d0 sl0]|] eqn:Htg.
  - destruct (place_session_write cn s t d0 sl0 Ht Htg)
      as (row & Hrow & Hlen & ->).
    eexists. split; [done|]. split.
    + apply well_shaped_insert; [done|]. by rewrite length_insert.
    + intros d sl. apply target_Some in Htg as (_ & _ & _ & Hsl).
      rewrite cell_at_insert by (done || lia).
      destruct (decide (d = d0 ∧ sl = sl0)) as [[-> ->]|Hne].
      * by rewrite decide_True.
      * rewrite decide_False; [done|]. intros [= -> ->]. by apply Hne.
  - exists t. split; [by apply place_session_skip|]. split; [done|].
    intros d sl. by rewrite decide_False.
Qed.

End grid.

(** ** The two nested loops of one group *)

Section loops.
Implicit Types (t : Grid) (l : list (string * Session)) (d sl : nat).

Lemma populate_agenda (gc : GroupCourses) t : populate gc t = run (agenda gc) t.
Proof. unfold populate, run, agenda. apply forEach_nested. Qed.

Lemma run_cons cn s l t :
  run ((cn, s) :: l) t = place_session cn s t ≫= run l.
Proof. done. Qed.

Lemma run_app l1 l2 t : run (l1 ++ l2) t = run l1 t ≫= run l2.
Proof. apply forEach_app. Qed.

Lemma run_total l t :
  well_shaped t → ∃ t', run l t = Some t' ∧ well_shaped t'.
Proof.
  apply forEach_invariant. intros [cn s] t0 Ht0.
  destruct (place_session_spec cn s t0 Ht0) as (t' & ? & ? & _). eauto.
Qed.

Lemma run_skip l t :
  Forall (λ p, target p.2 = None) l → run l t = Some t.
Proof.
  induction 1 as [|[cn s] l Hs _ IH]; [done|].
  rewrite run_cons, place_session_skip by done. apply IH.
Qed.

(** A cell that no session of the list aims at keeps its content. *)
Lemma run_untouched l t t' d sl :
  well_shaped t → run l t = Some t' →
  Forall (λ p, target p.2 ≠ Some (d, sl)) l →
  cell_at t' d sl = cell_at t d sl.
Proof.
  intros Ht Hrun Hall. revert t Ht Hrun.
  induction Hall as [|[cn s] l Hs _ IH]; intros t Ht Hrun.
  - by injection Hrun as ->.
  - rewrite run_cons in Hrun.
    destruct (place_session_spec cn s t Ht) as (t1 & Ht1 & Hsh & Hcell).
    rewrite Ht1 in Hrun. simpl in Hrun.
    rewrite (IH t1 Hsh Hrun), Hcell. by rewrite decide_False.
Qed.

(** The last session aimed at a cell is the one found in it. *)
Lemma run_last pre cn s post t t' d sl :
  well_shaped t → run (pre ++ (cn, s) :: post) t = Some t' →
  target s = Some (d, sl) →
  Forall (λ p, target p.2 ≠ Some (d, sl)) post →
  cell_at t' d sl = Some (cell_of cn s).
Proof.
  intros Ht Hrun Htg Hpost.
  rewrite run_app in Hrun.
  destruct (run_total pre t Ht) as (t1 & Ht1 & Hsh1).
  rewrite Ht1 in Hrun. simpl in Hrun. rewrite run_cons in Hrun.
  destruct (place_session_spec cn s t1 Hsh1) as (t2 & Ht2 & Hsh2 & Hcell).
  rewrite Ht2 in Hrun. simpl in Hrun.
  rewrite (run_untouched post t2 t' d sl Hsh2 Hrun Hpost), Hcell.
  by rewrite decide_True.
Qed.

(** Whatever is found in a cell was there before or was put there by a
    session of the list aimed at that cell. *)
Lemma run_sound l t t' d sl c :
  well_shaped t → run l t = Some t' → cell_at t' d sl = Some c →
  cell_at t d sl = Some c ∨
  ∃ cn s, (cn, s) ∈ l ∧ target s = Some (d, sl) ∧ c = cell_of cn s.
Proof.
  revert t. induction l as [|[cn s] l IH]; intros t Ht Hrun Hc.
  - injection Hrun as ->. by left.
  - rewrite run_cons in Hrun.
    destruct (place_session_spec cn s t Ht) as (t1 & Ht1 & Hsh & Hcell).
    rewrite Ht1 in Hrun. simpl in Hrun.
    destruct (IH t1 Hsh Hrun Hc) as [Hold|(cn' & s' & Hin & Htg & ->)].
    + rewrite Hcell in Hold. case_decide as Htg.
      * right. exists cn, s. split; [left|]. split; [done|congruence].
      * by left.
    + right. exists cn', s'. split; [by right|done].
Qed.

Lemma elem_of_agenda (gc : GroupCourses) cn s :
  (cn, s) ∈ agenda gc ↔ ∃ sessions, (cn, sessions) ∈ gc ∧ s ∈ sessions.
Proof.
  unfold agenda. rewrite list_elem_of_bind. split.
  - intros ([cn' ss] & Hin & Hgc). rewrite elem_of_Object_entries in Hgc.
    apply list_elem_of_fmap in Hin as (s' & [= -> ->] & Hs'). eauto.
  - intros (ss & Hgc & Hs). exists (cn, ss). split.
    + apply list_elem_of_fmap. eauto.
    + by rewrite elem_of_Object_entries.
Qed.

Lemma group_timetable_total (gc : GroupCourses) :
  ∃ t, group_timetable gc = Some t ∧ well_shaped t.
Proof.
  unfold group_timetable. rewrite populate_agenda.
  apply run_total, empty_timetable_well_shaped.
Qed.

End loops.

(** ** The outer loop over the groups *)

Section groups.
Implicit Types (data : Payload) (out : list (string * Grid)).

Lemma Timetable_Forall2 data out :
  Timetable data = Some out ↔
  Forall2 (λ e r, r.1 = e.1 ∧ group_timetable e.2 = Some r.2)
          (Object_entries data) out.
Proof.
  unfold Timetable. split; intros H.
  - apply mapM_Some_1 in H. eapply Forall2_impl; [done|].
    intros [g gc] [g' t] Hf. simpl in *.
    destruct (group_timetable gc) as [t0|]; by simplify_eq/=.
  - apply mapM_Some_2. eapply Forall2_impl; [done|].
    intros [g gc] [g' t] [Hk Ht]. simpl in *. subst g'. by rewrite Ht.
Qed.

Lemma Timetable_total data : is_Some (Timetable data).
Proof.
  unfold Timetable. apply mapM_is_Some_2, Forall_forall.
  intros [g gc] _. simpl.
  destruct (group_timetable_total gc) as (t & -> & _). by eexists.
Qed.

Lemma Timetable_keys data out :
  Timetable data = Some out → out.*1 = (Object_entries data).*1.
Proof.
  rewrite Timetable_Forall2. generalize (Object_entries data).
  intros es HF. induction HF as [|e r es rs [Hk _] _ IH]; [done|].
  rewrite !fmap_cons. by f_equal.
Qed.

Lemma elem_of_Timetable data out g t :
  Timetable data = Some out →
  (g, t) ∈ out ↔ ∃ gc, (g, gc) ∈ data ∧ group_timetable gc = Some t.
Proof.
  rewrite Timetable_Forall2. intros HF. split.
  - intros Hin. apply list_elem_of_lookup in Hin as [i Hi].
    destruct (Forall2_lookup_r _ _ _ _ _ HF Hi) as ([g' gc] & He & Hk & Ht).
    simpl in *. subst g'. exists gc. split; [|done].
    rewrite <-elem_of_Object_entries. by eapply list_elem_of_lookup_2.
  - intros (gc & Hin & Ht). rewrite <-elem_of_Object_entries in Hin.
    apply list_elem_of_lookup in Hin as [i Hi].
    destruct (Forall2_lookup_l _ _ _ _ _ HF Hi) as ([g' t'] & Hr & Hk & Ht').
    simpl in *. subst g'. assert (t' = t) as -> by congruence.
    by eapply list_elem_of_lookup_2.
Qed.

End groups.

(** ** Splitting at underscores *)

Section split.
Variable sep : ascii.

Lemma split_not_nil s : split sep s ≠ [].
Proof. destruct s as [|c r]; simpl; [done|]. by repeat case_match. Qed.

(** The first piece ends at the first separator and the remaining pieces
    are those of what follows it. *)
Lemma split_unfold s :
  split sep s =
  before_first sep s ::
    (if contains sep s then split sep (after_first sep s) else []).
Proof.
  induction s as [|c r IH]; simpl; [done|].
  case_decide; [done|]. by rewrite IH.
Qed.

Lemma after_first_no_sep s : contains sep s = false → after_first sep s = EmptyString.
Proof. induction s as [|c r IH]; simpl; [done|]. by case_decide. Qed.

Lemma before_first_no_sep s : contains sep s = false → before_first sep s = s.
Proof.
  induction s as [|c r IH]; simpl; [done|].
  case_decide; [done|]. intros Hr. by rewrite IH.
Qed.

End split.

Lemma subType_unfold ct :
  subType ct =
  if contains "_" ct then Some (before_first "_" (after_first "_" ct)) else None.
Proof.
  unfold subType. rewrite split_unfold.
  destruct (contains "_" ct); [|done].
  by rewrite split_unfold.
Qed.

(** ** Keys of the enumeration *)

Lemma index_filter_keys {V} (o : JsObject.obj V) :
  (filter is_index o).*1 = filter (λ k, is_Some (array_index k)) o.*1.
Proof.
  induction o as [|p o IH]; [done|].
  rewrite fmap_cons, !filter_cons.
  destruct (decide (is_index p)) as [Hp|Hp];
    destruct (decide (is_Some (array_index p.1))) as [Hp'|Hp'].
  - by rewrite fmap_cons, IH.
  - by destruct Hp'.
  - by destruct Hp.
  - done.
Qed.

Lemma string_filter_keys {V} (o : JsObject.obj V) :
  (string_entries o).*1 = filter (λ k, array_index k = None) o.*1.
Proof.
  unfold string_entries. induction o as [|p o IH]; [done|].
  rewrite fmap_cons, !filter_cons.
  destruct (decide (¬ is_index p)) as [Hp|Hp];
    destruct (decide (array_index p.1 = None)) as [Hp'|Hp'].
  - by rewrite fmap_cons, IH.
  - destruct Hp'. by apply eq_None_not_Some.
  - destruct Hp. unfold is_index. rewrite Hp'. by intros [? ?].
  - done.
Qed.

(** In a well-formed object a key has one value. *)
Lemma wf_unique {V} (o : JsObject.obj V) k v1 v2 :
  wf o → (k, v1) ∈ o → (k, v2) ∈ o → v1 = v2.
Proof.
  unfold wf. induction o as [|[k' v'] o IH]; [by intros _ ?%elem_of_nil|].
  rewrite fmap_cons, NoDup_cons, !elem_of_cons. simpl.
  intros [Hk Hnd] [H1|H1] [H2|H2].
  - congruence.
  - injection H1 as -> ->. destruct Hk.
    by apply (list_elem_of_fmap_2 fst _ (k', v2)).
  - injection H2 as -> ->. destruct Hk.
    by apply (list_elem_of_fmap_2 fst _ (k', v1)).
  - by apply IH.
Qed.

Lemma index_entries_keys_sorted {V} (o : JsObject.obj V) :
  wf o → StronglySorted index_lt (index_entries o).*1.
Proof.
  intros Hwf.
  assert (NoDup (index_entries o).*1) as Hnd.
  { rewrite index_entries_Permutation, index_filter_keys.
    by apply NoDup_filter. }
  assert (Forall is_index (index_entries o)) as Hidx.
  { apply Forall_forall. intros p.
    rewrite index_entries_Permutation, list_elem_of_filter. tauto. }
  pose proof (Sorted_StronglySorted _ _ (index_entries_Sorted o)) as Hs.
  induction Hs as [|p l _ IH Hp]; [constructor|].
  rewrite fmap_cons in *. apply NoDup_cons in Hnd as [Hnotin Hnd].
  apply Forall_cons in Hidx as [[n Hn] Hidx].
  constructor; [by apply IH|].
  apply Forall_fmap, Forall_forall. intros q Hq.
  pose proof (proj1 (Forall_forall _ _) Hidx q Hq) as [m Hm].
  pose proof (proj1 (Forall_forall _ _) Hp q Hq) as Hle.
  unfold index_le, index_of in Hle. rewrite Hn, Hm in Hle. simpl in Hle.
  exists n, m. split; [done|]. split; [done|].
  destruct (decide (n = m)) as [->|]; [|lia].
  destruct Hnotin. rewrite (array_index_inj _ _ _ Hn Hm).
  by apply list_elem_of_fmap_2.
Qed.

(** The key order of [Object.entries], in terms of the keys in creation
    order. *)
Lemma Object_entries_keys {V} (o : JsObject.obj V) :
  (Object_entries o).*1 =
  (index_entries o).*1 ++ filter (λ k, array_index k = None) o.*1.
Proof.
  unfold Object_entries. by rewrite fmap_app, string_filter_keys.
Qed.

Lemma index_entries_keys_Permutation {V} (o : JsObject.obj V) :
  (index_entries o).*1 ≡ₚ filter (λ k, is_Some (array_index k)) o.*1.
Proof.
  by rewrite index_entries_Permutation, index_filter_keys.
Qed.

(** ** One group within the payload *)

Lemma Timetable_group (data : Payload) g gc :
  wf data → (g, gc) ∈ data →
  ∃ out t, Timetable data = Some out ∧ group_timetable gc = Some t ∧
           (g, t) ∈ out ∧ ∀ t', (g, t') ∈ out → t' = t.
Proof.
  intros Hwf Hin.
  destruct (Timetable_total data) as [out Hout].
  destruct (group_timetable_total gc) as (t & Ht & _).
  exists out, t. split; [done|]. split; [done|]. split.
  - apply (elem_of_Timetable data out g t Hout). eauto.
  - intros t' (gc' & Hin' & Ht')%(elem_of_Timetable data out g t' Hout).
    assert (gc' = gc) as -> by (by eapply wf_unique). congruence.
Qed.

(** A session outside the calendar can be dropped from the agenda. *)
Lemma run_drop pre cn s post t :
  target s = None → run (pre ++ (cn, s) :: post) t = run (pre ++ post) t.
Proof.
  intros Hs. rewrite !run_app. destruct (run pre t) as [t1|]; [|done].
  simpl. by rewrite run_cons, place_session_skip.
Qed.

(** * The stated properties *)

(** C1.  A session whose day or slot is out of range ([day > days],
    [slot > slots], [day < 1] or [slot < 1]) makes the loop body return the
    grid it was given, whatever that grid is, without throwing; the loops
    give the same result with or without that session; and the construction
    returns a result for every payload. *)
Theorem out_of_range_session_ignored
    (data : Payload) (cn : string) (s : Session) (t : Grid)
    (pre post : list (string * Session)) :
  out_of_range s →
  place_session cn s t = Some t ∧
  run (pre ++ (cn, s) :: post) t = run (pre ++ post) t ∧
  is_Some (Timetable data).
Proof.
  intros Hs%target_None. split; [by apply place_session_skip|].
  split; [by apply run_drop | apply Timetable_total].
Qed.

Lemma out_of_range_session_ignored_witness :
  place_session "Security" late_session empty_timetable = Some empty_timetable ∧
  run ([("Security", security_lecture)] ++ ("Security", late_session) :: [])
      empty_timetable
    = run ([("Security", security_lecture)] ++ []) empty_timetable ∧
  is_Some (Timetable single_session_payload).
Proof.
  apply (out_of_range_session_ignored single_session_payload "Security"
           late_session empty_timetable [("Security", security_lecture)] []).
  unfold out_of_range. simpl. lia.
Defined.

(** C2.  In every group, when a session of the agenda (courses in
    [Object.entries] order, sessions in array order) is in range and no later
    session of the agenda has the same day and slot, the cell at that day
    and slot is exactly the cell object of that session: its course name,
    its [course_type] and its [teacher_id], whatever was written there
    earlier. *)
Theorem last_write_wins
    (data : Payload) (g : string) (gc : GroupCourses)
    (pre post : list (string * Session)) (cn : string) (s : Session)
    (d sl : nat) :
  wf data → (g, gc) ∈ data →
  agenda gc = pre ++ (cn, s) :: post →
  day s = Z.of_nat d + 1 → slot s = Z.of_nat sl + 1 →
  (d < length days)%nat → (sl < length timeSlots)%nat →
  Forall (λ p, ¬ (day p.2 = day s ∧ slot p.2 = slot s)) post →
  ∃ out t, Timetable data = Some out ∧ (g, t) ∈ out ∧
           (∀ t', (g, t') ∈ out → t' = t) ∧
           cell_at t d sl =
             Some {| courseName := cn; courseType := course_type s;
                     teacherId := teacher_id s |}.
Proof.
  intros Hwf Hin Hag Hd Hs Hdlt Hslt Hpost.
  destruct (Timetable_group data g gc Hwf Hin) as (out & t & Hout & Ht & Hgt & Huniq).
  exists out, t. do 3 (split; [done|]).
  unfold group_timetable in Ht. rewrite populate_agenda, Hag in Ht.
  apply (run_last pre cn s post empty_timetable t d sl
           empty_timetable_well_shaped Ht).
  - apply target_Some. lia.
  - eapply Forall_impl; [exact Hpost|]. intros [cn' s'] Hne. simpl in *.
    intros (Hd' & Hs' & _)%target_Some. apply Hne. lia.
Qed.

Lemma last_write_wins_witness :
  ∃ out t, Timetable collision_payload = Some out ∧ ("1", t) ∈ out ∧
           (∀ t', ("1", t') ∈ out → t' = t) ∧
           cell_at t 1 1 =
             Some {| courseName := "Security"; courseType := "Security_td";
                     teacherId := 7 |}.
Proof.
  apply (last_write_wins collision_payload "1" collision_courses
           [("Algebra", algebra_lecture)] [] "Security" security_td 1 1).
  - unfold wf. simpl. apply NoDup_singleton.
  - apply list_elem_of_here.
  - reflexivity.
  - reflexivity.
  - reflexivity.
  - simpl. lia.
  - simpl. lia.
  - apply Forall_nil_2.
Defined.

(** C3, as stated, fails: with two underscores the label is the text
    between them, not everything after the first one. *)
Lemma subType_two_underscores :
  subType "A_b_c" = Some "b"%string ∧
  after_first "_" "A_b_c" = "b_c"%string ∧
  text_of (subType "A_b_c") ≠ after_first "_" "A_b_c".
Proof. split; [done|]. split; [done|]. by vm_compute. Qed.

(** C3, amended.  The sub-type expression [courseType.split('_')[1]] is
    the text after the first underscore of [courseType] up to the next
    underscore, or to the end when there is no other; it is [undefined]
    when there is no underscore.  The label shown is that text, and is empty
    when there is no underscore; it is all of the text after the first
    underscore when that text has no underscore. *)
Theorem subType_between_underscores (ct : string) :
  subType ct =
    (if contains "_" ct then Some (before_first "_" (after_first "_" ct))
     else None) ∧
  text_of (subType ct) = before_first "_" (after_first "_" ct) ∧
  (contains "_" ct = false → text_of (subType ct) = EmptyString) ∧
  (contains "_" (after_first "_" ct) = false →
   text_of (subType ct) = after_first "_" ct).
Proof.
  assert (text_of (subType ct) = before_first "_" (after_first "_" ct)) as Htxt.
  { rewrite subType_unfold. destruct (contains "_" ct) eqn:Hc; [done|].
    by rewrite after_first_no_sep. }
  split; [apply subType_unfold|]. split; [done|]. split.
  - intros Hc. by rewrite Htxt, after_first_no_sep.
  - intros Hc. by rewrite Htxt, before_first_no_sep.
Qed.

(** C4.  The construction returns, for a well-formed payload, a list whose
    keys are the payload's keys, each once; and a group all of whose
    sessions are out of range, in particular a group without courses or
    without sessions, gets the grid in which every cell is [null]. *)
Theorem one_grid_per_group (data : Payload) :
  wf data →
  ∃ out, Timetable data = Some out ∧ out.*1 ≡ₚ data.*1 ∧ NoDup out.*1 ∧
    ∀ g gc, (g, gc) ∈ data →
      (∀ cn sessions s, (cn, sessions) ∈ gc → s ∈ sessions → out_of_range s) →
      ∃ t, (g, t) ∈ out ∧ (∀ t', (g, t') ∈ out → t' = t) ∧
           t = empty_timetable ∧ ∀ d sl, cell_at t d sl = None.
Proof.
  intros Hwf. destruct (Timetable_total data) as [out Hout].
  exists out. split; [done|].
  assert (out.*1 ≡ₚ data.*1) as Hperm.
  { rewrite (Timetable_keys data out Hout).
    by rewrite Object_entries_Permutation. }
  split; [done|]. split; [by rewrite Hperm|].
  intros g gc Hin Hall.
  destruct (Timetable_group data g gc Hwf Hin)
    as (out' & t & Hout' & Ht & Hgt & Huniq).
  assert (out' = out) as -> by congruence.
  exists t. do 2 (split; [done|]).
  assert (t = empty_timetable) as ->.
  { unfold group_timetable in Ht. rewrite populate_agenda, run_skip in Ht.
    - congruence.
    - apply Forall_forall. intros [cn s] (ss & Hcn & Hs)%elem_of_agenda.
      apply target_None. eauto. }
  split; [done|]. apply cell_at_empty.
Qed.

Lemma one_grid_per_group_witness :
  ∃ out, Timetable sparse_payload = Some out ∧
    out.*1 ≡ₚ sparse_payload.*1 ∧ NoDup out.*1 ∧
    ∀ g gc, (g, gc) ∈ sparse_payload →
      (∀ cn sessions s, (cn, sessions) ∈ gc → s ∈ sessions → out_of_range s) →
      ∃ t, (g, t) ∈ out ∧ (∀ t', (g, t') ∈ out → t' = t) ∧
           t = empty_timetable ∧ ∀ d sl, cell_at t d sl = None.
Proof.
  apply (one_grid_per_group sparse_payload).
  unfold wf. apply (bool_decide_unpack _). vm_compute. exact I.
Defined.

(** C5.  For the payload with group "1", course "Security" and one session
    on day 1 at slot 1, the result is one grid under key "1" whose cell
    [0][0] holds the course name, the course type and the teacher
    identifier of the session, all 24 other cells being [null]; the
    sub-type shown for that cell is "lecture". *)
Theorem single_session_scenario :
  Timetable single_session_payload =
    Some [("1"%string,
           [[Some {| courseName := "Security";
                     courseType := "Security_lecture";
                     teacherId := 1 |}; None; None; None; None];
            [None; None; None; None; None];
            [None; None; None; None; None];
            [None; None; None; None; None];
            [None; None; None; None; None]])] ∧
  subType "Security_lecture" = Some "lecture"%string ∧
  subType_label {| courseName := "Security";
                   courseType := "Security_lecture";
                   teacherId := 1 |} = "lecture"%string.
Proof. split; [by vm_compute|]. split; by vm_compute. Qed.

(** C6.  The construction returns a result, and any two runs on the same
    payload return the same list of grids. *)
Theorem Timetable_deterministic (data : Payload) :
  ∃ out, Timetable data = Some out ∧
         ∀ out', Timetable data = Some out' → out' = out.
Proof.
  destruct (Timetable_total data) as [out Hout].
  exists out. split; [done|]. intros out' Hout'. congruence.
Qed.

(** C7.  There are five days and five time slots; the grid a group starts
    from has five rows of five [null] cells; and every grid of the result
    has five rows of five cells, whatever the payload holds.  A cell is
    [null] or one cell object: a write into an occupied cell replaces what
    was there. *)
Theorem grid_dimensions (data : Payload) :
  length days = 5%nat ∧ length timeSlots = 5%nat ∧
  empty_timetable = replicate 5 (replicate 5 None) ∧
  (∀ gc : GroupCourses, group_timetable gc = populate gc empty_timetable) ∧
  (∀ cn s (t : Grid) d sl,
     well_shaped t → target s = Some (d, sl) →
     ∃ t', place_session cn s t = Some t' ∧
           cell_at t' d sl = Some (cell_of cn s)) ∧
  ∃ out, Timetable data = Some out ∧
         ∀ g (t : Grid), (g, t) ∈ out →
           length t = 5%nat ∧ Forall (λ row, length row = 5%nat) t.
Proof.
  do 4 (split; [done|]). split.
  - intros cn s t d sl Ht Htg.
    destruct (place_session_spec cn s t Ht) as (t' & Ht' & _ & Hcell).
    exists t'. split; [done|]. by rewrite Hcell, decide_True.
  - destruct (Timetable_total data) as [out Hout].
    exists out. split; [done|].
    intros g t (gc & _ & Ht)%(elem_of_Timetable data out g t Hout).
    destruct (group_timetable_total gc) as (t' & Ht' & Hshape).
    assert (t' = t) as -> by congruence. exact Hshape.
Qed.

(** C8, as stated, fails: with group "2" created before group "1" the
    result lists group "1" first. *)
Lemma reversed_payload_reordered :
  reversed_payload.*1 = ["2"; "1"]%string ∧
  ∃ out, Timetable reversed_payload = Some out ∧
         out.*1 = ["1"; "2"]%string ∧ out.*1 ≠ reversed_payload.*1.
Proof.
  split; [done|]. eexists. split; [by vm_compute|]. split; [done|]. done.
Qed.

(** C8, amended.  The result lists the groups in the [Object.entries] order
    of the payload: first the keys that are array indices (canonical decimal
    numerals up to 2^32 - 2, such as "1" and "2") in ascending numeric
    order, then the other keys in creation order.  When no key is an array
    index, the creation order is kept. *)
Theorem groups_in_enumeration_order (data : Payload) :
  wf data →
  ∃ out idx, Timetable data = Some out ∧
    out.*1 = idx ++ filter (λ k, array_index k = None) data.*1 ∧
    idx ≡ₚ filter (λ k, is_Some (array_index k)) data.*1 ∧
    StronglySorted index_lt idx ∧
    (Forall (λ k, array_index k = None) data.*1 → out.*1 = data.*1).
Proof.
  intros Hwf. destruct (Timetable_total data) as [out Hout].
  exists out, (index_entries data).*1. split; [done|].
  rewrite (Timetable_keys data out Hout).
  split; [apply Object_entries_keys|].
  split; [apply index_entries_keys_Permutation|].
  split; [by apply index_entries_keys_sorted|].
  intros Hnone. rewrite Object_entries_no_index; [done|].
  by apply Forall_fmap in Hnone.
Qed.

Lemma groups_in_enumeration_order_witness :
  ∃ out idx, Timetable reversed_payload = Some out ∧
    out.*1 = idx ++ filter (λ k, array_index k = None) reversed_payload.*1 ∧
    idx ≡ₚ filter (λ k, is_Some (array_index k)) reversed_payload.*1 ∧
    StronglySorted index_lt idx ∧
    (Forall (λ k, array_index k = None) reversed_payload.*1 →
     out.*1 = reversed_payload.*1).
Proof.
  apply (groups_in_enumeration_order reversed_payload).
  unfold wf. apply (bool_decide_unpack _). vm_compute. exact I.
Defined.

(** C9.  Every non-empty cell of every grid of the result comes from the
    input: the group has a course with a session whose day and slot are
    the cell's position plus one, and the cell holds that course's name and
    that session's [course_type] and [teacher_id]. *)
Theorem cell_soundness (data : Payload) :
  ∃ out, Timetable data = Some out ∧
    ∀ g (t : Grid) d sl c, (g, t) ∈ out → cell_at t d sl = Some c →
      ∃ gc cn sessions s,
        (g, gc) ∈ data ∧ (cn, sessions) ∈ gc ∧ s ∈ sessions ∧
        day s = Z.of_nat d + 1 ∧ slot s = Z.of_nat sl + 1 ∧
        (d < length days)%nat ∧ (sl < length timeSlots)%nat ∧
        courseName c = cn ∧ courseType c = course_type s ∧
        teacherId c = teacher_id s.
Proof.
  destruct (Timetable_total data) as [out Hout].
  exists out. split; [done|].
  intros g t d sl c (gc & Hin & Ht)%(elem_of_Timetable data out g t Hout) Hc.
  unfold group_timetable in Ht. rewrite populate_agenda in Ht.
  destruct (run_sound _ _ _ d sl c empty_timetable_well_shaped Ht Hc)
    as [Hempty|(cn & s & Hag & Htg & ->)].
  - by rewrite cell_at_empty in Hempty.
  - apply elem_of_agenda in Hag as (ss & Hcn & Hs).
    apply target_Some in Htg as (Hd & Hsl & Hdlt & Hsllt).
    exists gc, cn, ss, s. by repeat split.
Qed.

(** C10.  Two well-formed payloads that give a group the same courses give
    it the same grid, whatever their other groups are. *)
Theorem group_isolation (data1 data2 : Payload) (g : string) (gc : GroupCourses) :
  wf data1 → wf data2 → (g, gc) ∈ data1 → (g, gc) ∈ data2 →
  ∃ out1 out2 t,
    Timetable data1 = Some out1 ∧ Timetable data2 = Some out2 ∧
    (g, t) ∈ out1 ∧ (g, t) ∈ out2 ∧
    (∀ t', (g, t') ∈ out1 → t' = t) ∧ (∀ t', (g, t') ∈ out2 → t' = t).
Proof.
  intros Hwf1 Hwf2 Hin1 Hin2.
  destruct (Timetable_group data1 g gc Hwf1 Hin1)
    as (out1 & t1 & Hout1 & Ht1 & Hgt1 & Huniq1).
  destruct (Timetable_group data2 g gc Hwf2 Hin2)
    as (out2 & t2 & Hout2 & Ht2 & Hgt2 & Huniq2).
  assert (t2 = t1) as -> by congruence.
  exists out1, out2, t1. by repeat split.
Qed.

Lemma group_isolation_witness :
  ∃ out1 out2 t,
    Timetable collision_payload = Some out1 ∧
    Timetable other_payload = Some out2 ∧
    ("1"%string, t) ∈ out1 ∧ ("1"%string, t) ∈ out2 ∧
    (∀ t', ("1"%string, t') ∈ out1 → t' = t) ∧
    (∀ t', ("1"%string, t') ∈ out2 → t' = t).
Proof.
  apply (group_isolation collision_payload other_payload "1" collision_courses).
  - unfold wf. apply (bool_decide_unpack _). vm_compute. exact I.
  - unfold wf. apply (bool_decide_unpack _). vm_compute. exact I.
  - apply list_elem_of_here.
  - apply list_elem_of_here.
Defined.

(** * Further properties of the component *)

(** ** The rendered table *)

Section rendering.
Implicit Types (t : Grid) (v : GroupView) (d sl : nat).

(** A grid of the right shape is five rows. *)
Lemma well_shaped_rows t :
  well_shaped t → ∃ r0 r1 r2 r3 r4, t = [r0; r1; r2; r3; r4].
Proof.
  intros [Hlen _].
  destruct t as [|r0 [|r1 [|r2 [|r3 [|r4 [|? ?]]]]]]; try done.
  by exists r0, r1, r2, r3, r4.
Qed.

(** Rendering a grid of the right shape does not throw, and the body of
    the table is the grid transposed: rows are slots, columns are days. *)
Lemma render_group_spec g t :
  well_shaped t →
  ∃ v, render_group g t = Some v ∧
       group_key v = g ∧ heading v = "Group " +:+ g ∧
       thead v = "Time/Day"%string :: days ∧
       (tbody v).*1 = timeSlots ∧
       Forall (λ r, length r.2 = length days) (tbody v) ∧
       ∀ sl d, shown v sl d =
               if decide (sl < length timeSlots ∧ d < length days)%nat
               then render_cell (cell_at t d sl) else None.
Proof.
  intros (r0 & r1 & r2 & r3 & r4 & ->)%well_shaped_rows.
  eexists. split; [reflexivity|]. do 4 (split; [done|]).
  split; [by repeat constructor|].
  intros sl d.
  do 5 (destruct sl as [|sl];
        [do 5 (destruct d as [|d]; [reflexivity|]); reflexivity|]).
  reflexivity.
Qed.

Lemma Timetable_view_Forall2 (data : Payload) (views : list GroupView) :
  Timetable_view data = Some views ↔
  Forall2 (λ e v, ∃ t, group_timetable e.2 = Some t ∧
                       render_group e.1 t = Some v)
          (Object_entries data) views.
Proof.
  unfold Timetable_view. split; intros H.
  - apply mapM_Some_1 in H. eapply Forall2_impl; [done|].
    intros [g gc] v Hf. simpl in *.
    destruct (group_timetable gc) as [t|]; [|done]. by exists t.
  - apply mapM_Some_2. eapply Forall2_impl; [done|].
    intros [g gc] v (t & Ht & Hv). simpl in *. by rewrite Ht.
Qed.

Lemma Timetable_view_total (data : Payload) : is_Some (Timetable_view data).
Proof.
  unfold Timetable_view. apply mapM_is_Some_2, Forall_forall.
  intros [g gc] _. simpl.
  destruct (group_timetable_total gc) as (t & -> & Ht). simpl.
  destruct (render_group_spec g t Ht) as (v & -> & _). by eexists.
Qed.

(** The views are the renderings of the grids, in the same order. *)
Lemma Timetable_view_grids (data : Payload) out views :
  Timetable data = Some out → Timetable_view data = Some views →
  Forall2 (λ r v, well_shaped r.2 ∧ render_group r.1 r.2 = Some v) out views.
Proof.
  rewrite Timetable_Forall2, Timetable_view_Forall2.
  generalize (Object_entries data). intros es Hout. revert views.
  induction Hout as [|e r es rs [Hk Ht] _ IH]; intros views Hv.
  - apply Forall2_nil_inv_l in Hv as ->. constructor.
  - apply Forall2_cons_inv_l in Hv as (v & vs & (t & Ht' & Hv) & Hvs & ->).
    constructor; [|by apply IH].
    assert (t = r.2) as -> by congruence. rewrite Hk. split; [|done].
    destruct (group_timetable_total e.2) as (t' & Ht'' & Hsh). congruence.
Qed.

Lemma elem_of_Timetable_view (data : Payload) views v :
  Timetable_view data = Some views → v ∈ views →
  ∃ gc t, (group_key v, gc) ∈ data ∧ group_timetable gc = Some t ∧
          well_shaped t ∧ render_group (group_key v) t = Some v.
Proof.
  rewrite Timetable_view_Forall2. intros HF [i Hi]%list_elem_of_lookup.
  destruct (Forall2_lookup_r _ _ _ _ _ HF Hi) as ([g gc] & He & t & Ht & Hv).
  simpl in *.
  destruct (group_timetable_total gc) as (t' & Ht' & Hsh).
  assert (t' = t) as -> by congruence.
  destruct (render_group_spec g t Hsh) as (v' & Hv' & Hk & _).
  assert (v' = v) as -> by congruence. subst g.
  exists gc, t. split; [|done]. rewrite <-elem_of_Object_entries.
  by eapply list_elem_of_lookup_2.
Qed.

Lemma Timetable_view_group (data : Payload) g gc :
  wf data → (g, gc) ∈ data →
  ∃ views v t, Timetable_view data = Some views ∧
    group_timetable gc = Some t ∧ well_shaped t ∧
    render_group g t = Some v ∧ v ∈ views ∧
    ∀ v', v' ∈ views → group_key v' = g → v' = v.
Proof.
  intros Hwf Hin.
  destruct (Timetable_view_total data) as [views Hviews].
  destruct (group_timetable_total gc) as (t & Ht & Hsh).
  destruct (render_group_spec g t Hsh) as (v & Hv & Hk & _).
  exists views, v, t. do 4 (split; [done|]). split.
  - pose proof Hviews as HF. rewrite Timetable_view_Forall2 in HF.
    rewrite <-elem_of_Object_entries in Hin.
    apply list_elem_of_lookup in Hin as [i Hi].
    destruct (Forall2_lookup_l _ _ _ _ _ HF Hi) as (v' & Hv' & t' & Ht' & Hr).
    simpl in *. assert (t' = t) as -> by congruence.
    assert (v' = v) as -> by congruence. by eapply list_elem_of_lookup_2.
  - intros v' Hin' Hk'.
    destruct (elem_of_Timetable_view data views v' Hviews Hin')
      as (gc' & t' & Hgc' & Ht' & _ & Hv').
    rewrite Hk' in Hgc', Hv'.
    assert (gc' = gc) as -> by (by eapply wf_unique). congruence.
Qed.

End rendering.

(** X1.  The component renders every payload without throwing: one block
    per entry of the payload in [Object.entries] order, keyed by the group
    number and headed "Group <number>", each with the header row
    "Time/Day" followed by the five days and five body rows labelled with
    the time slots in order, five cells each.  For a well-formed payload
    no two blocks have the same key. *)
Theorem view_layout (data : Payload) :
  ∃ views, Timetable_view data = Some views ∧
    group_key <$> views = (Object_entries data).*1 ∧
    (wf data → NoDup (group_key <$> views)) ∧
    Forall (λ v, heading v = "Group " +:+ group_key v ∧
                 thead v = "Time/Day"%string :: days ∧
                 (tbody v).*1 = timeSlots ∧
                 Forall (λ r, length r.2 = 5%nat) (tbody v)) views.
Proof.
  destruct (Timetable_view_total data) as [views Hviews].
  exists views. split; [done|].
  assert (group_key <$> views = (Object_entries data).*1) as Hkeys.
  { pose proof Hviews as HF. rewrite Timetable_view_Forall2 in HF.
    clear Hviews. revert HF. generalize (Object_entries data). intros es HF.
    induction HF as [|e v es vs (t & Ht & Hv) _ IH]; [done|].
    rewrite !fmap_cons. f_equal; [|done].
    destruct (group_timetable_total e.2) as (t' & Ht' & Hsh).
    assert (t' = t) as -> by congruence.
    destruct (render_group_spec e.1 t Hsh) as (v' & Hv' & Hk & _).
    congruence. }
  split; [done|]. split.
  - intros Hwf. rewrite Hkeys. by apply Object_entries_keys_NoDup.
  - apply Forall_forall. intros v Hv.
    destruct (elem_of_Timetable_view data views v Hviews Hv)
      as (gc & t & _ & _ & Hsh & Hr).
    destruct (render_group_spec (group_key v) t Hsh)
      as (v' & Hv' & _ & Hh & Hth & Htb & Hlen & _).
    assert (v' = v) as -> by congruence. done.
Qed.

(** X2.  The table body is the grid transposed: in the block of a group,
    the body row of slot [sl] shows in the column of day [d] the cell
    [timetable[d][sl]] of that group's grid, as a course entry when the cell
    holds an object and as nothing when it is [null]. *)
Theorem view_transposes_grid (data : Payload) :
  ∃ out views, Timetable data = Some out ∧ Timetable_view data = Some views ∧
    Forall2 (λ r v, group_key v = r.1 ∧
                    ∀ d sl, (d < length days)%nat → (sl < length timeSlots)%nat →
                            shown v sl d = render_cell (cell_at r.2 d sl))
            out views.
Proof.
  destruct (Timetable_total data) as [out Hout].
  destruct (Timetable_view_total data) as [views Hviews].
  exists out, views. do 2 (split; [done|]).
  eapply Forall2_impl; [exact (Timetable_view_grids data out views Hout Hviews)|].
  intros [g t] v [Hsh Hr]. simpl in *.
  destruct (render_group_spec g t Hsh) as (v' & Hv' & Hk & _ & _ & _ & _ & Hshown).
  assert (v' = v) as -> by congruence. split; [done|].
  intros d sl Hd Hsl. rewrite Hshown. by rewrite decide_True.
Qed.

(** X3.  A session that is in range, with no later session of its group's
    agenda at the same day and slot, is displayed: the block of its group
    shows, in the row of its slot and the column of its day, its course
    name, the second underscore-separated piece of its [course_type] and
    its teacher identifier. *)
Theorem session_displayed
    (data : Payload) (g : string) (gc : GroupCourses)
    (pre post : list (string * Session)) (cn : string) (s : Session)
    (d sl : nat) :
  wf data → (g, gc) ∈ data →
  agenda gc = pre ++ (cn, s) :: post →
  day s = Z.of_nat d + 1 → slot s = Z.of_nat sl + 1 →
  (d < length days)%nat → (sl < length timeSlots)%nat →
  Forall (λ p, ¬ (day p.2 = day s ∧ slot p.2 = slot s)) post →
  ∃ views v, Timetable_view data = Some views ∧ v ∈ views ∧
    group_key v = g ∧ (∀ v', v' ∈ views → group_key v' = g → v' = v) ∧
    shown v sl d =
      Some {| entry_name := cn; entry_type := subType (course_type s);
              entry_teacher := teacher_id s |}.
Proof.
  intros Hwf Hin Hag Hd Hs Hdlt Hslt Hpost.
  destruct (Timetable_view_group data g gc Hwf Hin)
    as (views & v & t & Hviews & Ht & Hsh & Hv & Hvin & Huniq).
  destruct (render_group_spec g t Hsh) as (v' & Hv' & Hk & _ & _ & _ & _ & Hshown).
  assert (v' = v) as -> by congruence.
  exists views, v. do 4 (split; [done|]).
  rewrite Hshown, decide_True by done.
  unfold group_timetable in Ht. rewrite populate_agenda, Hag in Ht.
  rewrite (run_last pre cn s post empty_timetable t d sl
             empty_timetable_well_shaped Ht); [done| |].
  - apply target_Some. lia.
  - eapply Forall_impl; [exact Hpost|]. intros [cn' s'] Hne. simpl in *.
    intros (Hd' & Hs' & _)%target_Some. apply Hne. lia.
Qed.

Lemma session_displayed_witness :
  ∃ views v, Timetable_view collision_payload = Some views ∧ v ∈ views ∧
    group_key v = "1"%string ∧
    (∀ v', v' ∈ views → group_key v' = "1"%string → v' = v) ∧
    shown v 1 1 =
      Some {| entry_name := "Security"; entry_type := subType "Security_td";
              entry_teacher := 7 |}.
Proof.
  apply (session_displayed collision_payload "1" collision_courses
           [("Algebra", algebra_lecture)] [] "Security" security_td 1 1).
  - unfold wf. simpl. apply NoDup_singleton.
  - apply list_elem_of_here.
  - reflexivity.
  - reflexivity.
  - reflexivity.
  - simpl. lia.
  - simpl. lia.
  - apply Forall_nil_2.
Defined.

(** X4.  Nothing is displayed that is not in the payload: every course
    entry shown in a block, in the row of slot [sl] and the column of day
    [d], is the name of a course of that group and the sub-type piece and
    teacher identifier of one of its sessions, whose day is [d + 1] and
    whose slot is [sl + 1]. *)
Theorem view_soundness (data : Payload) :
  ∃ views, Timetable_view data = Some views ∧
    ∀ v sl d e, v ∈ views → shown v sl d = Some e →
      ∃ gc cn sessions s,
        (group_key v, gc) ∈ data ∧ (cn, sessions) ∈ gc ∧ s ∈ sessions ∧
        day s = Z.of_nat d + 1 ∧ slot s = Z.of_nat sl + 1 ∧
        entry_name e = cn ∧ entry_type e = subType (course_type s) ∧
        entry_teacher e = teacher_id s.
Proof.
  destruct (Timetable_view_total data) as [views Hviews].
  exists views. split; [done|]. intros v sl d e Hv He.
  destruct (elem_of_Timetable_view data views v Hviews Hv)
    as (gc & t & Hgc & Ht & Hsh & Hr).
  destruct (render_group_spec (group_key v) t Hsh)
    as (v' & Hv' & _ & _ & _ & _ & _ & Hshown).
  assert (v' = v) as -> by congruence.
  rewrite Hshown in He. case_decide as Hb; [|done].
  destruct (cell_at t d sl) as [c|] eqn:Hc; [|done].
  injection He as <-.
  unfold group_timetable in Ht. rewrite populate_agenda in Ht.
  destruct (run_sound _ _ _ d sl c empty_timetable_well_shaped Ht Hc)
    as [Hempty|(cn & s & Hag & Htg & ->)].
  - by rewrite cell_at_empty in Hempty.
  - apply elem_of_agenda in Hag as (ss & Hcn & Hs).
    apply target_Some in Htg as (Hd & Hsl & _ & _).
    exists gc, cn, ss, s. by repeat split.
Qed.

(** ** Which cells are filled, and by whom *)

Section cells.
Implicit Types (t : Grid) (l : list (string * Session)) (d sl : nat).

(** Grids of the right shape with the same cells are the same grid. *)
Lemma grid_ext t1 t2 :
  well_shaped t1 → well_shaped t2 →
  (∀ d sl, (d < length days)%nat → (sl < length timeSlots)%nat →
           cell_at t1 d sl = cell_at t2 d sl) →
  t1 = t2.
Proof.
  intros [Hl1 Hr1] [Hl2 Hr2] Hcells.
  apply (list_eq_same_length _ _ (length days)); [done..|].
  intros d r1 r2 Hd H1 H2.
  pose proof (Forall_lookup_1 _ _ _ _ Hr1 H1) as Hlen1.
  pose proof (Forall_lookup_1 _ _ _ _ Hr2 H2) as Hlen2.
  apply (list_eq_same_length _ _ (length timeSlots)); [done..|].
  intros sl c1 c2 Hsl Hc1 Hc2.
  specialize (Hcells d sl Hd Hsl). unfold cell_at in Hcells.
  rewrite H1, H2 in Hcells. simpl in Hcells.
  by rewrite Hc1, Hc2 in Hcells.
Qed.

(** The last element of a list with a decidable property. *)
Lemma last_with {A} (P : A → Prop) `{∀ x, Decision (P x)} (xs : list A) :
  Exists P xs →
  ∃ pre x post, xs = pre ++ x :: post ∧ P x ∧ Forall (λ y, ¬ P y) post.
Proof.
  induction xs as [|x xs IH]; [by intros ?%Exists_nil|].
  intros Hex. destruct (decide (Exists P xs)) as [Hxs|Hxs].
  - destruct (IH Hxs) as (pre & y & post & -> & Hy & Hpost).
    by exists (x :: pre), y, post.
  - apply Exists_cons in Hex as [Hx|?]; [|done].
    exists [], x, xs. split; [done|]. split; [done|].
    by apply Forall_Exists_neg.
Qed.

Lemma run_filled l t t' d sl :
  well_shaped t → run l t = Some t' →
  Exists (λ p, target p.2 = Some (d, sl)) l → is_Some (cell_at t' d sl).
Proof.
  intros Ht Hrun Hex.
  apply (last_with (λ p, target p.2 = Some (d, sl))) in Hex
    as (pre & [cn s] & post & -> & Htg & Hpost).
  rewrite (run_last pre cn s post t t' d sl Ht Hrun Htg Hpost). by eexists.
Qed.

Lemma collision_free_split pre cn s post d sl :
  collision_free (pre ++ (cn, s) :: post) → target s = Some (d, sl) →
  Forall (λ p, target p.2 ≠ Some (d, sl)) post.
Proof.
  unfold collision_free. rewrite omap_app. simpl. intros Hnd Htg.
  rewrite Htg in Hnd. apply NoDup_app in Hnd as (_ & _ & Hnd).
  apply NoDup_cons in Hnd as [Hnotin _].
  apply Forall_forall. intros p Hp Hp'. apply Hnotin.
  apply list_elem_of_omap. by exists p.
Qed.

(** Without collisions every session of the list that is in range is found
    in its cell at the end. *)
Lemma run_collision_free l t t' cn s d sl :
  well_shaped t → run l t = Some t' → collision_free l →
  (cn, s) ∈ l → target s = Some (d, sl) →
  cell_at t' d sl = Some (cell_of cn s).
Proof.
  intros Ht Hrun Hcf (pre & post & ->)%list_elem_of_split Htg.
  apply (run_last pre cn s post t t' d sl Ht Hrun Htg).
  by eapply collision_free_split.
Qed.

(** Without collisions the order of the sessions does not matter. *)
Lemma run_Permutation l1 l2 t :
  well_shaped t → l1 ≡ₚ l2 → collision_free l1 → run l1 t = run l2 t.
Proof.
  intros Ht Hperm Hcf1.
  assert (collision_free l2) as Hcf2.
  { unfold collision_free in *. by rewrite <-Hperm. }
  destruct (run_total l1 t Ht) as (t1 & Hrun1 & Hsh1).
  destruct (run_total l2 t Ht) as (t2 & Hrun2 & Hsh2).
  rewrite Hrun1, Hrun2. f_equal. apply grid_ext; [done..|].
  intros d sl _ _.
  destruct (decide (Exists (λ p, target p.2 = Some (d, sl)) l1)) as [Hex|Hex].
  - apply Exists_exists in Hex as ([cn s] & Hin & Htg). simpl in Htg.
    rewrite (run_collision_free l1 t t1 cn s d sl) by done.
    rewrite (run_collision_free l2 t t2 cn s d sl); [done..| |done].
    by rewrite <-Hperm.
  - apply Forall_Exists_neg in Hex.
    rewrite (run_untouched l1 t t1 d sl Ht Hrun1 Hex).
    rewrite (run_untouched l2 t t2 d sl Ht Hrun2); [done|].
    by rewrite <-Hperm.
Qed.

End cells.

(** X5.  A cell of a group's grid is filled exactly when the group has a
    session in range at that day and slot: no scheduled slot is shown
    empty and no empty slot is shown filled. *)
Theorem cell_filled_iff (gc : GroupCourses) (d sl : nat) :
  ∃ t, group_timetable gc = Some t ∧
    (is_Some (cell_at t d sl) ↔
     ∃ cn sessions s, (cn, sessions) ∈ gc ∧ s ∈ sessions ∧
       day s = Z.of_nat d + 1 ∧ slot s = Z.of_nat sl + 1 ∧
       (d < length days)%nat ∧ (sl < length timeSlots)%nat).
Proof.
  destruct (group_timetable_total gc) as (t & Ht & Hsh).
  exists t. split; [done|].
  unfold group_timetable in Ht. rewrite populate_agenda in Ht. split.
  - intros [c Hc].
    destruct (run_sound _ _ _ d sl c empty_timetable_well_shaped Ht Hc)
      as [Hempty|(cn & s & Hag & Htg & _)].
    + by rewrite cell_at_empty in Hempty.
    + apply elem_of_agenda in Hag as (ss & Hcn & Hs).
      apply target_Some in Htg. exists cn, ss, s. tauto.
  - intros (cn & ss & s & Hcn & Hs & Hd & Hsl & Hdlt & Hsllt).
    apply (run_filled _ _ _ d sl empty_timetable_well_shaped Ht).
    apply Exists_exists. exists (cn, s). split.
    + apply elem_of_agenda. eauto.
    + apply target_Some. tauto.
Qed.

(** X6.  When no two sessions of a group are written to the same cell, the
    grid does not depend on the order in which courses and sessions are
    visited: two groups whose agendas are permutations of each other get
    the same grid. *)
Theorem collision_free_order_irrelevant (gc1 gc2 : GroupCourses) :
  agenda gc1 ≡ₚ agenda gc2 → collision_free (agenda gc1) →
  ∃ t, group_timetable gc1 = Some t ∧ group_timetable gc2 = Some t.
Proof.
  intros Hperm Hcf. destruct (group_timetable_total gc1) as (t & Ht & _).
  exists t. split; [done|]. rewrite <-Ht.
  unfold group_timetable. rewrite !populate_agenda. symmetry.
  by apply run_Permutation; [apply empty_timetable_well_shaped|..].
Qed.

Lemma collision_free_order_irrelevant_witness :
  ∃ t, group_timetable disjoint_courses = Some t ∧
       group_timetable disjoint_courses_swapped = Some t.
Proof.
  apply (collision_free_order_irrelevant disjoint_courses disjoint_courses_swapped).
  - apply (bool_decide_unpack _). vm_compute. exact I.
  - unfold collision_free. apply (bool_decide_unpack _). vm_compute. exact I.
Defined.

(** ** Creation order of the keys *)

Section creation_order.
Context {V : Type}.
Implicit Types o : JsObject.obj V.

(** The array-index part of the enumeration does not depend on the order
    in which the properties were created. *)
Lemma index_entries_creation_order o1 o2 :
  wf o1 → o1 ≡ₚ o2 → index_entries o1 = index_entries o2.
Proof.
  intros Hwf Hperm.
  apply (Sorted_unique_strong index_le);
    [|apply index_entries_Sorted..|].
  - intros [k1 v1] [k2 v2].
    rewrite !index_entries_Permutation, !list_elem_of_filter, <-Hperm.
    intros [[n1 Hn1] Hin1] [[n2 Hn2] Hin2]. simpl in *.
    unfold index_le, index_of. simpl. rewrite Hn1, Hn2. simpl.
    intros Hle1 Hle2. assert (n1 = n2) as -> by lia.
    pose proof (array_index_inj _ _ _ Hn1 Hn2) as ->.
    f_equal. by eapply wf_unique.
  - by rewrite !index_entries_Permutation, Hperm.
Qed.

Lemma Object_entries_creation_order o1 o2 :
  wf o1 → o1 ≡ₚ o2 → string_entries o1 = string_entries o2 →
  Object_entries o1 = Object_entries o2.
Proof.
  intros Hwf Hperm Hstr. unfold Object_entries.
  by rewrite (index_entries_creation_order o1 o2), Hstr.
Qed.

(** A property with a key that is not an array index, created last, is
    enumerated last. *)
Lemma Object_entries_snoc o k v :
  array_index k = None →
  Object_entries (o ++ [(k, v)]) = Object_entries o ++ [(k, v)].
Proof.
  intros Hk. unfold Object_entries, index_entries, string_entries.
  rewrite !filter_app, !filter_cons, !filter_nil.
  rewrite decide_False by (unfold is_index; simpl; rewrite Hk; by intros [? ?]).
  rewrite decide_True by (unfold is_index; simpl; rewrite Hk; by intros [? ?]).
  by rewrite app_nil_r, app_assoc.
Qed.

End creation_order.

(** X7.  For a well-formed payload the result depends on the order in
    which the group keys were created only through the keys that are not
    array indices: two payloads with the same entries, whose other keys
    come in the same order, give the same grids and the same rendering. *)
Theorem numeric_keys_order_irrelevant (data1 data2 : Payload) :
  wf data1 → data1 ≡ₚ data2 →
  string_entries data1 = string_entries data2 →
  Timetable data1 = Timetable data2 ∧
  Timetable_view data1 = Timetable_view data2.
Proof.
  intros Hwf Hperm Hstr. unfold Timetable, Timetable_view.
  by rewrite (Object_entries_creation_order data1 data2).
Qed.

Lemma numeric_keys_order_irrelevant_witness :
  Timetable reversed_payload = Timetable ordered_payload ∧
  Timetable_view reversed_payload = Timetable_view ordered_payload.
Proof.
  apply (numeric_keys_order_irrelevant reversed_payload ordered_payload).
  - unfold wf. apply (bool_decide_unpack _). vm_compute. exact I.
  - apply Permutation_swap.
  - reflexivity.
Defined.

(** X8.  A group with a key that is not an array index, created after the
    others, is appended: the grids of the other groups and their order are
    unchanged and the new group's grid comes last. *)
Theorem new_group_appended (data : Payload) (g : string) (gc : GroupCourses) :
  array_index g = None → g ∉ data.*1 →
  ∃ out t, Timetable data = Some out ∧ group_timetable gc = Some t ∧
           Timetable (data ++ [(g, gc)]) = Some (out ++ [(g, t)]).
Proof.
  intros Hg _. destruct (Timetable_total data) as [out Hout].
  destruct (group_timetable_total gc) as (t & Ht & _).
  exists out, t. do 2 (split; [done|]).
  apply Timetable_Forall2. rewrite Object_entries_snoc by done.
  apply Forall2_app; [by apply Timetable_Forall2|].
  by repeat constructor.
Qed.

Lemma new_group_appended_witness :
  ∃ out t, Timetable collision_payload = Some out ∧
    group_timetable [("Security"%string, [security_lecture])] = Some t ∧
    Timetable (collision_payload ++ [("B"%string, [("Security"%string, [security_lecture])])])
      = Some (out ++ [("B"%string, t)]).
Proof.
  apply (new_group_appended collision_payload "B"
           [("Security"%string, [security_lecture])]).
  - reflexivity.
  - apply (bool_decide_unpack _). vm_compute. exact I.
Defined.

(** ** Two writes in a row *)

(** X9.  A write is lost entirely when the next session has the same day
    and slot: on a grid of the right shape, the two writes in a row give
    the grid that the second alone gives. *)
Theorem second_write_overwrites
    (cn1 cn2 : string) (s1 s2 : Session) (t : Grid) :
  well_shaped t → day s1 = day s2 → slot s1 = slot s2 →
  place_session cn1 s1 t ≫= place_session cn2 s2 = place_session cn2 s2 t.
Proof.
  intros Ht Hd Hs.
  destruct (place_session_spec cn1 s1 t Ht) as (t1 & Ht1 & Hsh1 & Hc1).
  destruct (place_session_spec cn2 s2 t1 Hsh1) as (t12 & Ht12 & Hsh12 & Hc12).
  destruct (place_session_spec cn2 s2 t Ht) as (t2 & Ht2 & Hsh2 & Hc2).
  rewrite Ht1. simpl. rewrite Ht12, Ht2. f_equal.
  apply grid_ext; [done..|]. intros d sl _ _.
  rewrite Hc12, Hc2, Hc1.
  assert (target s1 = target s2) as -> by (unfold target; by rewrite Hd, Hs).
  by case_decide.
Qed.

Lemma second_write_overwrites_witness :
  place_session "Algebra" algebra_lecture empty_timetable
    ≫= place_session "Security" security_td
  = place_session "Security" security_td empty_timetable.
Proof.
  apply (second_write_overwrites "Algebra" "Security" algebra_lecture
           security_td empty_timetable).
  - apply empty_timetable_well_shaped.
  - reflexivity.
  - reflexivity.
Defined.

(** X10.  Writes of sessions that differ in day or slot commute: on a grid
    of the right shape the two orders give the same grid. *)
Theorem distinct_writes_commute
    (cn1 cn2 : string) (s1 s2 : Session) (t : Grid) :
  well_shaped t → ¬ (day s1 = day s2 ∧ slot s1 = slot s2) →
  place_session cn1 s1 t ≫= place_session cn2 s2 =
  place_session cn2 s2 t ≫= place_session cn1 s1.
Proof.
  intros Ht Hne.
  destruct (place_session_spec cn1 s1 t Ht) as (t1 & Ht1 & Hsh1 & Hc1).
  destruct (place_session_spec cn2 s2 t1 Hsh1) as (t12 & Ht12 & Hsh12 & Hc12).
  destruct (place_session_spec cn2 s2 t Ht) as (t2 & Ht2 & Hsh2 & Hc2).
  destruct (place_session_spec cn1 s1 t2 Hsh2) as (t21 & Ht21 & Hsh21 & Hc21).
  rewrite Ht1, Ht2. simpl. rewrite Ht12, Ht21. f_equal.
  apply grid_ext; [done..|]. intros d sl _ _.
  rewrite Hc12, Hc21, Hc1, Hc2.
  repeat case_decide; try done.
  destruct Hne.
  assert (target s1 = Some (d, sl)) as (? & ? & _)%target_Some by done.
  assert (target s2 = Some (d, sl)) as (? & ? & _)%target_Some by done.
  lia.
Qed.

Lemma distinct_writes_commute_witness :
  place_session "Algebra" algebra_lecture empty_timetable
    ≫= place_session "Security" security_lecture
  = place_session "Security" security_lecture empty_timetable
    ≫= place_session "Algebra" algebra_lecture.
Proof.
  apply (distinct_writes_commute "Algebra" "Security" algebra_lecture
           security_lecture empty_timetable).
  - apply empty_timetable_well_shaped.
  - unfold algebra_lecture, security_lecture. simpl. lia.
Defined.

(** ** The sub-type label and the underscores of [course_type] *)

Section underscores.
Variable sep : ascii.

Lemma contains_before_first s : contains sep (before_first sep s) = false.
Proof.
  induction s as [|c r IH]; simpl; [done|].
  case_decide; [done|]. simpl. by rewrite decide_False.
Qed.

Lemma before_first_app a b :
  contains sep a = false → before_first sep (a +:+ String sep b) = a.
Proof.
  induction a as [|c r IH]; simpl.
  - by rewrite decide_True.
  - case_decide; [done|]. intros Hr. by rewrite IH.
Qed.

Lemma after_first_app a b :
  contains sep a = false → after_first sep (a +:+ String sep b) = b.
Proof.
  induction a as [|c r IH]; simpl.
  - by rewrite decide_True.
  - case_decide; [done|]. apply IH.
Qed.

Lemma contains_app a b : contains sep (a +:+ String sep b) = true.
Proof.
  induction a as [|c r IH]; simpl.
  - by rewrite decide_True.
  - by case_decide.
Qed.

End underscores.

(** X11.  For a [course_type] made of a name without underscore, an
    underscore and a kind without underscore, as in "Security_lecture",
    the sub-type expression is the kind. *)
Theorem subType_of_name_kind (name kind : string) :
  contains "_" name = false → contains "_" kind = false →
  subType (name +:+ String "_" kind) = Some kind.
Proof.
  intros Hname Hkind.
  rewrite subType_unfold, contains_app, after_first_app by done.
  by rewrite before_first_no_sep.
Qed.

Lemma subType_of_name_kind_witness :
  subType ("Security" +:+ String "_" "lecture") = Some "lecture"%string.
Proof.
  apply (subType_of_name_kind "Security" "lecture"); reflexivity.
Defined.

(** X12.  When the course name itself has an underscore, the sub-type
    expression is a piece of the name, not the kind: for [a_b_kind] with
    [a] and [b] free of underscores it is [b], whatever the kind is. *)
Theorem subType_of_underscored_name (a b kind : string) :
  contains "_" a = false → contains "_" b = false →
  subType (a +:+ String "_" (b +:+ String "_" kind)) = Some b.
Proof.
  intros Ha Hb.
  rewrite subType_unfold, contains_app, after_first_app by done.
  by rewrite before_first_app.
Qed.

Lemma subType_of_underscored_name_witness :
  subType ("Data" +:+ String "_" ("Structures" +:+ String "_" "lecture"))
  = Some "Structures"%string.
Proof.
  apply (subType_of_underscored_name "Data" "Structures" "lecture");
    reflexivity.
Defined.

(** X13.  The label shown for the sub-type never contains an underscore. *)
Theorem subType_label_no_underscore (c : Cell) :
  contains "_" (subType_label c) = false.
Proof.
  unfold subType_label. rewrite subType_unfold.
  destruct (contains "_" (courseType c)); [|done].
  apply contains_before_first.
Qed.


(** ** Courses with numeric names *)

(** The agenda visits the courses whose names are array indices first. *)
Lemma agenda_split (gc : GroupCourses) :
  agenda gc =
  ('(cn, ss) ← index_entries gc; (λ s, (cn, s)) <$> ss) ++
  ('(cn, ss) ← string_entries gc; (λ s, (cn, s)) <$> ss).
Proof. unfold agenda, Object_entries. apply bind_app. Qed.

(** X14.  A course whose name is an array index (a numeral such as "101")
    is visited before the courses with other names, whenever it was
    created: where a course with another name has a session in range, the
    cell is never left to a course with a numeric name. *)
Theorem named_course_beats_numbered
    (gc : GroupCourses) (cn : string) (sessions : list Session) (s : Session)
    (d sl : nat) :
  (cn, sessions) ∈ gc → array_index cn = None → s ∈ sessions →
  day s = Z.of_nat d + 1 → slot s = Z.of_nat sl + 1 →
  (d < length days)%nat → (sl < length timeSlots)%nat →
  ∃ t c, group_timetable gc = Some t ∧ cell_at t d sl = Some c ∧
         array_index (courseName c) = None.
Proof.
  intros Hcn Hidx Hs Hd Hsl Hdlt Hsllt.
  destruct (group_timetable_total gc) as (t & Ht & _).
  exists t. pose proof Ht as Hgt. unfold group_timetable in Ht.
  rewrite populate_agenda, agenda_split, run_app in Ht.
  destruct (run_total ('(cn, ss) ← index_entries gc; (λ s, (cn, s)) <$> ss)
              empty_timetable empty_timetable_well_shaped)
    as (t1 & Ht1 & Hsh1).
  rewrite Ht1 in Ht. simpl in Ht.
  assert (Exists (λ p, target p.2 = Some (d, sl))
            ('(cn, ss) ← string_entries gc; (λ s, (cn, s)) <$> ss)) as Hex.
  { apply Exists_exists. exists (cn, s). split; [|apply target_Some; tauto].
    apply list_elem_of_bind. exists (cn, sessions). split.
    - by apply list_elem_of_fmap_2.
    - unfold string_entries. apply list_elem_of_filter. split; [|done].
      unfold is_index. simpl. rewrite Hidx. by intros [? ?]. }
  apply (last_with (λ p, target p.2 = Some (d, sl))) in Hex
    as (pre & [cn' s'] & post & Hag & Htg & Hpost).
  rewrite Hag in Ht.
  exists (cell_of cn' s'). split; [done|]. split.
  - by apply (run_last pre cn' s' post t1 t d sl Hsh1 Ht).
  - assert ((cn', s') ∈ '(cn, ss) ← string_entries gc; (λ s, (cn, s)) <$> ss)
      as Hin by (rewrite Hag; rewrite elem_of_app; right; left).
    apply list_elem_of_bind in Hin as ([cn0 ss0] & Hin & Hgc).
    apply list_elem_of_fmap in Hin as (s0 & [= -> ->] & _).
    unfold string_entries in Hgc. apply list_elem_of_filter in Hgc as [Hni _].
    simpl. by apply eq_None_not_Some.
Qed.

Lemma named_course_beats_numbered_witness :
  ∃ t c, group_timetable numbered_courses = Some t ∧
         cell_at t 1 1 = Some c ∧ array_index (courseName c) = None.
Proof.
  apply (named_course_beats_numbered numbered_courses "Algebra"
           [algebra_lecture] algebra_lecture 1 1).
  - apply list_elem_of_here.
  - reflexivity.
  - apply list_elem_of_here.
  - reflexivity.
  - reflexivity.
  - simpl. lia.
  - simpl. lia.
Defined.
